(** * Jira search results and JQL project scoping

    A shallow embedding of [JiraSearchResult.from_api_response]
    (src/mcp_atlassian/models/jira/search.py) and of the JQL composition
    that the search mixin performs, together with the properties the
    specification states about them.

    Python values are the ones a decoded JSON document is made of.  Strings
    are modelled at the level of ASCII characters: what the interpreter makes
    of text beyond ASCII depends on its Unicode tables, which are not
    modelled, and the statements that rest on the conversion of text say that
    the text is ASCII.  Exceptions are explicit: a computation yields either
    a value or the exception it raises. *)

From Stdlib Require Import ZArith List String Ascii Bool Lia SpecFloat.
From Stdlib Require DecimalString DecimalZ.
Import ListNotations.

Set Warnings "-register-all".

Local Open Scope string_scope.
Local Open Scope Z_scope.

(** ** Python values *)

Module Py.

(** What [json] decoding produces: [None], booleans, unbounded integers,
    binary floating point numbers (with infinities and NaN, which the
    decoder accepts), strings, lists and string-keyed dicts.  A dict keeps
    its insertion order; lookups take the first binding of a key. *)
Inductive value : Type :=
| PNone
| PBool (b : bool)
| PInt (z : Z)
| PFloat (f : spec_float)
| PStr (s : string)
| PList (l : list value)
| PDict (d : list (string * value)).

Definition dict : Type := list (string * value).

(** The exceptions the built-ins used by the normalizer can raise. *)
Inductive exn : Type :=
| ValueError
| TypeError
| OverflowError.

Inductive result (A : Type) : Type :=
| Ok (a : A)
| Raise (e : exn).

Arguments Ok {A} a.
Arguments Raise {A} e.

Definition bind {A B : Type} (m : result A) (k : A -> result B) : result B :=
  match m with
  | Ok a => k a
  | Raise e => Raise e
  end.

Notation "x <- m ;; k" := (bind m (fun x => k))
  (at level 61, m at next level, right associativity).

(** [d.get(key)]: [None] when the key is missing. *)
Fixpoint lookup (key : string) (d : dict) : option value :=
  match d with
  | [] => None
  | (k, v) :: rest => if String.eqb k key then Some v else lookup key rest
  end.

(** [d.get(key, default)]. *)
Definition get (d : dict) (key : string) (default : value) : value :=
  match lookup key d with
  | Some v => v
  | None => default
  end.

(** [key in d]. *)
Definition contains (d : dict) (key : string) : bool :=
  match lookup key d with
  | Some _ => true
  | None => false
  end.

(** [x is None]. *)
Definition is_none (v : value) : bool :=
  match v with
  | PNone => true
  | _ => false
  end.

(** Truth value testing, as [if x:] and [not x] perform it. *)
Definition truthy (v : value) : bool :=
  match v with
  | PNone => false
  | PBool b => b
  | PInt z => negb (z =? 0)
  | PFloat (S754_zero _) => false
  | PFloat _ => true
  | PStr EmptyString => false
  | PStr _ => true
  | PList [] => false
  | PList _ => true
  | PDict [] => false
  | PDict _ => true
  end.

(** *** [int(x)] *)

(** The characters [str.strip] regards as whitespace, within ASCII: tab to
    carriage return, the four separators 28..31 and the space. *)
Definition is_space (c : ascii) : bool :=
  let n := nat_of_ascii c in
  ((9 <=? n) && (n <=? 13) || (28 <=? n) && (n <=? 31) || (n =? 32))%nat.

Definition is_digit (c : ascii) : bool :=
  let n := nat_of_ascii c in
  ((48 <=? n) && (n <=? 57))%nat.

Definition digit_value (c : ascii) : Z :=
  Z.of_nat (nat_of_ascii c) - 48.

Fixpoint lstrip (s : string) : string :=
  match s with
  | EmptyString => EmptyString
  | String c rest => if is_space c then lstrip rest else s
  end.

Fixpoint rstrip (s : string) : string :=
  match s with
  | EmptyString => EmptyString
  | String c rest =>
      match rstrip rest with
      | EmptyString => if is_space c then EmptyString else String c EmptyString
      | r => String c r
      end
  end.

(** Whether a string is made of whitespace only. *)
Fixpoint all_space (s : string) : bool :=
  match s with
  | EmptyString => true
  | String c rest => is_space c && all_space rest
  end.

(** [s.strip()]. *)
Definition strip (s : string) : string := rstrip (lstrip s).

(** The characters [int] skips around a number, within ASCII: tab to
    carriage return and the space.  The separators 28..31 are not among
    them: [int] takes them for the start of a malformed number. *)
Definition is_int_space (c : ascii) : bool :=
  let n := nat_of_ascii c in
  ((9 <=? n) && (n <=? 13) || (n =? 32))%nat.

(** Dropping the leading, and the trailing, characters of a class. *)
Fixpoint lstrip_by (blank : ascii -> bool) (s : string) : string :=
  match s with
  | EmptyString => EmptyString
  | String c rest => if blank c then lstrip_by blank rest else s
  end.

Fixpoint rstrip_by (blank : ascii -> bool) (s : string) : string :=
  match s with
  | EmptyString => EmptyString
  | String c rest =>
      match rstrip_by blank rest with
      | EmptyString => if blank c then EmptyString else String c EmptyString
      | r => String c r
      end
  end.

(** Decimal digits in which single underscores may separate digits.
    [prev] tells whether the previous character was a digit. *)
Fixpoint parse_digits (acc : Z) (prev : bool) (s : string) : option Z :=
  match s with
  | EmptyString => if prev then Some acc else None
  | String c rest =>
      if is_digit c then parse_digits (10 * acc + digit_value c) true rest
      else if Ascii.eqb c "_" then
        if prev then parse_digits acc false rest else None
      else None
  end.

Fixpoint count_digits (s : string) : nat :=
  match s with
  | EmptyString => O
  | String c rest => if is_digit c then S (count_digits rest) else count_digits rest
  end.

(** The interpreter's default limit on the digits of a converted string. *)
Definition int_max_str_digits : nat := 4300.

(** [int(s)] for a string of ASCII characters, in base ten: the blanks of
    [is_int_space] around the number are dropped, one sign is allowed, and
    anything else than digits is a [ValueError]. *)
Definition int_of_string (s : string) : result Z :=
  let body := rstrip_by is_int_space (lstrip_by is_int_space s) in
  let '(neg, digits) :=
    match body with
    | String "-" rest => (true, rest)
    | String "+" rest => (false, rest)
    | _ => (false, body)
    end in
  if (int_max_str_digits <? count_digits digits)%nat then Raise ValueError
  else
    match parse_digits 0 false digits with
    | Some z => Ok (if neg then - z else z)
    | None => Raise ValueError
    end.

(** [int(f)] for a float: truncation toward zero; an infinity is an
    [OverflowError] and a NaN a [ValueError]. *)
Definition int_of_float (f : spec_float) : result Z :=
  match f with
  | S754_zero _ => Ok 0
  | S754_infinity _ => Raise OverflowError
  | S754_nan => Raise ValueError
  | S754_finite s m e =>
      let a := Z.shiftl (Zpos m) e in
      Ok (if s then - a else a)
  end.

(** [int(x)]. *)
Definition int (v : value) : result Z :=
  match v with
  | PNone => Raise TypeError
  | PBool b => Ok (if b then 1 else 0)
  | PInt z => Ok z
  | PFloat f => int_of_float f
  | PStr s => int_of_string s
  | PList _ => Raise TypeError
  | PDict _ => Raise TypeError
  end.

(** [len(l)]. *)
Definition len {A : Type} (l : list A) : Z := Z.of_nat (List.length l).

(** [str(z)] for an integer: its decimal digits, after a minus sign when it
    is negative. *)
Definition str_of_int (z : Z) : string :=
  DecimalString.NilEmpty.string_of_int (Z.to_int z).

(** Whether a string is made of ASCII characters only. *)
Fixpoint ascii_text (s : string) : bool :=
  match s with
  | EmptyString => true
  | String c rest => (nat_of_ascii c <? 128)%nat && ascii_text rest
  end.

(** The values whose conversion by [int] the model settles: every value
    that is not a string, and the strings of ASCII characters. *)
Definition plain (v : value) : bool :=
  match v with
  | PStr s => ascii_text s
  | _ => true
  end.

(** Whether a string is free of whitespace. *)
Fixpoint no_space (s : string) : bool :=
  match s with
  | EmptyString => true
  | String c rest => negb (is_space c) && no_space rest
  end.

End Py.

(** ** The result normalizer *)

Module Search.
Import Py.

(** Records handed to the module's logger. *)
Inductive log_level : Type :=
| DEBUG
| INFO
| WARNING
| ERROR.

Record log_record : Type := mk_log {
  level : log_level;
  message : string
}.

(** [try: body except (ValueError, TypeError): handler]. *)
Definition try_except {A : Type} (body handler : result A) : result A :=
  match body with
  | Raise ValueError => handler
  | Raise TypeError => handler
  | other => other
  end.

(** The values on which [int] raises an [OverflowError]. *)
Definition overflows (v : value) : bool :=
  match v with
  | PFloat (S754_infinity _) => true
  | _ => false
  end.

(** The coercion rule in the specification's words: the integer the field
    converts to, and the field's default when it is [None] or does not
    convert. *)
Definition coerce_or (raw : value) (default : Z) : Z :=
  if is_none raw then default
  else
    match int raw with
    | Ok z => z
    | Raise _ => default
    end.

Section Normalizer.

(** The issue model lives in a sibling module: the normalizer only calls its
    keyword constructor [JiraIssue(key=...)] and its factory
    [JiraIssue.from_api_response(data, requested_fields=...)].  Both are
    taken as given, and as returning an issue for every argument. *)
Variable JiraIssue : Type.
Variable JiraIssue_of_key : string -> JiraIssue.
Variable JiraIssue_from_api_response : value -> value -> JiraIssue.

Record JiraSearchResult : Type := mk_result {
  total : Z;
  start_at : Z;
  max_results : Z;
  issues : list JiraIssue
}.

(** [cls()]: every field at its declared default. *)
Definition default_result : JiraSearchResult :=
  {| total := 0; start_at := 0; max_results := 0; issues := [] |}.

(** One iteration of the loop over [issues_data], for a truthy element. *)
Definition build_issue (kwargs : dict) (issue_data : value) : JiraIssue :=
  match issue_data with
  | PStr key => JiraIssue_of_key key
  | _ =>
      let requested_fields := get kwargs "requested_fields" PNone in
      JiraIssue_from_api_response issue_data requested_fields
  end.

Fixpoint build_issues (kwargs : dict) (issues_data : list value)
  : list JiraIssue :=
  match issues_data with
  | [] => []
  | issue_data :: rest =>
      if truthy issue_data
      then build_issue kwargs issue_data :: build_issues kwargs rest
      else build_issues kwargs rest
  end.

Definition extract_issues (kwargs : dict) (data : dict) : list JiraIssue :=
  match get data "issues" (PList []) with
  | PList issues_data => build_issues kwargs issues_data
  | _ => []
  end.

Definition resolve_total (data : dict) (found : list JiraIssue) : result Z :=
  let raw_total := get data "total" PNone in
  if is_none raw_total && contains data "isLast" then
    Ok (if truthy (get data "isLast" (PBool false)) then len found else -1)
  else
    try_except (if negb (is_none raw_total) then int raw_total else Ok (-1))
               (Ok (-1)).

Definition resolve_start_at (data : dict) : result Z :=
  let raw_start_at := get data "startAt" PNone in
  try_except (if negb (is_none raw_start_at) then int raw_start_at else Ok 0)
             (Ok 0).

Definition resolve_max_results (data : dict) : result Z :=
  let raw_max_results := get data "maxResults" PNone in
  try_except
    (if negb (is_none raw_max_results) then int raw_max_results else Ok (-1))
    (Ok (-1)).

Definition non_dict_message : string :=
  "Received non-dictionary data, returning default instance".

(** [JiraSearchResult.from_api_response(data, **kwargs)]: the records logged
    and the instance returned, or the exception that escapes. *)
Definition from_api_response (data : value) (kwargs : dict)
  : list log_record * result JiraSearchResult :=
  if negb (truthy data) then ([], Ok default_result)
  else
    match data with
    | PDict d =>
        let found := extract_issues kwargs d in
        ([],
         t <- resolve_total d found ;;
         s <- resolve_start_at d ;;
         m <- resolve_max_results d ;;
         Ok {| total := t; start_at := s; max_results := m; issues := found |})
    | _ => ([mk_log DEBUG non_dict_message], Ok default_result)
    end.

End Normalizer.

Arguments total {JiraIssue} _.
Arguments start_at {JiraIssue} _.
Arguments max_results {JiraIssue} _.
Arguments issues {JiraIssue} _.
Arguments mk_result {JiraIssue} _ _ _ _.
Arguments resolve_total {JiraIssue} _ _.
Arguments default_result {JiraIssue}.

(** The smallest issue model, for running the normalizer on concrete
    responses: an issue is its key, read from the ["key"] entry of a full
    object. *)
Definition key_of_response (data requested_fields : value) : string :=
  match data with
  | PDict d =>
      match lookup "key" d with
      | Some (PStr key) => key
      | _ => EmptyString
      end
  | _ => EmptyString
  end.

Definition from_api_response_keys : value -> dict ->
  list log_record * result (JiraSearchResult string) :=
  from_api_response string (fun key => key) key_of_response.

(** Responses in the two pagination conventions. *)
Definition server_page : dict :=
  [("issues", PList [PDict [("id", PStr "10001"); ("key", PStr "TEST-123")]]);
   ("total", PInt 1); ("startAt", PInt 0); ("maxResults", PInt 50)].

Definition page_without_total : dict :=
  [("issues", PList [PDict [("key", PStr "X")]]);
   ("startAt", PInt 0); ("maxResults", PInt 50)].

Definition cloud_last_page : dict :=
  [("issues", PList [PStr "TEST-1"; PNone; PDict [("key", PStr "TEST-2")];
                     PStr EmptyString; PInt 0; PDict []]);
   ("isLast", PBool true)].

Definition cloud_more_pages : dict :=
  [("issues", PList [PStr "TEST-1"]); ("isLast", PBool false);
   ("startAt", PStr "abc"); ("maxResults", PStr " 50 ")].

Definition cloud_textual_flag : dict :=
  [("issues", PList [PStr "TEST-1"; PStr "TEST-2"]); ("total", PNone);
   ("isLast", PStr "false")].

(** Further responses: an infinite offset, pagination written as text, and
    a page of bare issue keys. *)
Definition infinite_offset : dict :=
  [("issues", PList []); ("startAt", PFloat (S754_infinity false))].

Definition textual_page : dict :=
  [("issues", PList [PStr "TEST-1"]); ("total", PStr (str_of_int 12));
   ("startAt", PStr (str_of_int (-3))); ("maxResults", PStr (str_of_int 50))].

Definition key_page : dict :=
  [("issues", PList (map PStr ["TEST-1"; EmptyString; "TEST-2"]));
   ("isLast", PBool true)].

(** *** The rest of the model class *)

Section View.

(** Each issue renders itself: [issue.to_simplified_dict()] belongs to the
    issue model and is taken as given. *)
Variable JiraIssue : Type.
Variable JiraIssue_to_simplified_dict : JiraIssue -> dict.

(** [validate_search_result]: the validator that runs after construction
    hands the instance back as it is. *)
Definition validate_search_result (self : JiraSearchResult JiraIssue)
  : JiraSearchResult JiraIssue := self.

(** [result.to_simplified_dict()]. *)
Definition to_simplified_dict (self : JiraSearchResult JiraIssue) : dict :=
  [("total", PInt (total self));
   ("start_at", PInt (start_at self));
   ("max_results", PInt (max_results self));
   ("issues",
    PList (map (fun issue => PDict (JiraIssue_to_simplified_dict issue))
               (issues self)))].

End View.

Arguments validate_search_result {JiraIssue} _.
Arguments to_simplified_dict {JiraIssue} _ _.

(** *** The normalizer over an issue model that may raise *)

Section Raising.

(** The constructor and the factory of the issue model are called outside of
    every [try]: whatever they raise leaves the normalizer.  Here each of
    them yields an issue or an exception of the issue model. *)
Variable JiraIssue : Type.
Variable IssueError : Type.
Variable JiraIssue_of_key : string -> IssueError + JiraIssue.
Variable JiraIssue_from_api_response : value -> value -> IssueError + JiraIssue.

(** What leaves the normalizer: an exception of the issue model, or one of
    the conversions of the pagination fields. *)
Inductive escaped : Type :=
| FromIssueModel (e : IssueError)
| FromConversion (e : exn).

Definition try_build_issue (kwargs : dict) (issue_data : value)
  : IssueError + JiraIssue :=
  match issue_data with
  | PStr key => JiraIssue_of_key key
  | _ =>
      let requested_fields := get kwargs "requested_fields" PNone in
      JiraIssue_from_api_response issue_data requested_fields
  end.

(** The loop stops at the first element on which the issue model raises. *)
Fixpoint try_build_issues (kwargs : dict) (issues_data : list value)
  : IssueError + list JiraIssue :=
  match issues_data with
  | [] => inr []
  | issue_data :: rest =>
      if truthy issue_data then
        match try_build_issue kwargs issue_data with
        | inl e => inl e
        | inr issue =>
            match try_build_issues kwargs rest with
            | inl e => inl e
            | inr found => inr (issue :: found)
            end
        end
      else try_build_issues kwargs rest
  end.

Definition try_extract_issues (kwargs : dict) (data : dict)
  : IssueError + list JiraIssue :=
  match get data "issues" (PList []) with
  | PList issues_data => try_build_issues kwargs issues_data
  | _ => inr []
  end.

(** [from_api_response] with the exceptions of the issue model: the issues
    are built first, the pagination fields are converted afterwards. *)
Definition from_api_response_raising (data : value) (kwargs : dict)
  : list log_record * (escaped + JiraSearchResult JiraIssue) :=
  if negb (truthy data) then ([], inr default_result)
  else
    match data with
    | PDict d =>
        match try_extract_issues kwargs d with
        | inl e => ([], inl (FromIssueModel e))
        | inr found =>
            ([],
             match
               t <- resolve_total d found ;;
               s <- resolve_start_at d ;;
               m <- resolve_max_results d ;;
               Ok {| total := t; start_at := s; max_results := m;
                     issues := found |}
             with
             | Ok r => inr r
             | Raise e => inl (FromConversion e)
             end)
        end
    | _ => ([mk_log DEBUG non_dict_message], inr default_result)
    end.

End Raising.

Arguments FromIssueModel {IssueError} e.
Arguments FromConversion {IssueError} e.

(** A small issue model that raises, for running the normalizer: a full
    object must be a dict with a string under ["key"]; the exception is its
    message. *)
Definition checked_key_of_response (data requested_fields : value)
  : string + string :=
  match data with
  | PDict d =>
      match lookup "key" d with
      | Some (PStr key) => inr key
      | _ => inl "issue without a key"
      end
  | _ => inl "issue is not an object"
  end.

Definition from_api_response_checked : value -> dict ->
  list log_record * (escaped string + JiraSearchResult string) :=
  from_api_response_raising string string (fun key => inr key)
                            checked_key_of_response.

Definition page_with_bad_issue : dict :=
  [("issues", PList [PStr "TEST-1"; PNone; PInt 7; PDict [("id", PStr "1")]]);
   ("total", PFloat (S754_infinity false))].

End Search.

(** ** The query composer *)

Module Jql.
Import Py.

Definition dquote : string := String (ascii_of_nat 34) EmptyString.

(** A project key between double quotes. *)
Definition quoted (key : string) : string := dquote ++ key ++ dquote.

Definition upper_char (c : ascii) : ascii :=
  let n := nat_of_ascii c in
  if ((97 <=? n) && (n <=? 122))%nat then ascii_of_nat (n - 32) else c.

(** [s.upper()] on ASCII letters. *)
Fixpoint upper (s : string) : string :=
  match s with
  | EmptyString => EmptyString
  | String c rest => String (upper_char c) (upper rest)
  end.

(** [s.split(sep)] for a one-character separator. *)
Fixpoint split (sep : ascii) (s : string) : list string :=
  match s with
  | EmptyString => [EmptyString]
  | String c rest =>
      if Ascii.eqb c sep then EmptyString :: split sep rest
      else
        match split sep rest with
        | [] => [String c EmptyString]
        | word :: words => String c word :: words
        end
  end.

(** [needle in s]. *)
Definition occurs (needle s : string) : bool :=
  match index 0 needle s with
  | Some _ => true
  | None => false
  end.

(** Modelled from the spec: the project predicate of the Query Composer
    (section 4.2), whose code (the search mixin) is not among the sources:
    [project = "K"] for one key, [project IN ("K1", "K2", ...)] otherwise. *)
Definition project_predicate (keys : list string) : string :=
  match keys with
  | [key] => "project = " ++ quoted key
  | _ => "project IN (" ++ String.concat ", " (map quoted keys) ++ ")"
  end.

(** Modelled from the spec: the detection of a query led by [ORDER BY]
    (section 4.2, missing with the search mixin): case-insensitive, and
    looking past leading whitespace. *)
Definition starts_with_order_by (query : string) : bool :=
  prefix "ORDER BY" (upper (lstrip query)).

(** Modelled from the spec: the Query Composer [compose(query, project_keys)]
    of section 4.2, row by row of its table; the search mixin that holds it is
    missing from the sources.  An absent query or key list is [None]. *)
Definition compose (query : option string) (project_keys : option (list string))
  : option string :=
  match project_keys with
  | None => query
  | Some [] => query
  | Some keys =>
      let predicate := project_predicate keys in
      match query with
      | None => Some predicate
      | Some EmptyString => Some predicate
      | Some q =>
          if starts_with_order_by q then Some (predicate ++ " " ++ q)
          else Some ("(" ++ q ++ ") AND " ++ predicate)
      end
  end.

(** Modelled from the spec: a filter that arrives as one comma-separated
    string is split and trimmed (section 4.2); missing with the search
    mixin. *)
Definition parse_projects_filter (filter : string) : list string :=
  map strip (split "," filter).

(** Modelled from the spec: a query is taken to hold a project predicate of
    its own when [project =] or [project IN] occurs in it (section 9);
    missing with the search mixin. *)
Definition mentions_project (query : string) : bool :=
  occurs "project =" query || occurs "project IN" query.

Section Caller.

(** How the caller recognises a project predicate already present in the
    query is left open by the specification. *)
Variable has_project_predicate : string -> bool.

(** Modelled from the spec: the call layer above the composer, missing with
    the search mixin (sections 4.2 and 9).  The explicit filter argument
    overrides the configured one; without either nothing is scoped; a query
    that already holds a project predicate is passed on as it is, and only
    otherwise is the composer invoked. *)
Definition search_jql (jql : option string)
  (projects_filter config_filter : option string) : option string :=
  let filter_to_use :=
    match projects_filter with
    | Some f => Some f
    | None => config_filter
    end in
  match filter_to_use with
  | None => jql
  | Some f =>
      match jql with
      | Some q =>
          if has_project_predicate q then jql
          else compose jql (Some (parse_projects_filter f))
      | None => compose jql (Some (parse_projects_filter f))
      end
  end.

End Caller.

End Jql.

(** ** Properties of the built-ins *)

Module PyFacts.
Import Py.

Lemma int_of_string_cases (s : string) :
  (exists z, int_of_string s = Ok z) \/ int_of_string s = Raise ValueError.
Proof.
  unfold int_of_string.
  destruct (match rstrip_by is_int_space (lstrip_by is_int_space s) with
            | String "-" rest => (true, rest)
            | String "+" rest => (false, rest)
            | _ => (false, rstrip_by is_int_space (lstrip_by is_int_space s))
            end) as [neg digits].
  destruct (int_max_str_digits <? count_digits digits)%nat; [now right|].
  destruct (parse_digits 0 false digits) as [z|]; [left; eauto | now right].
Qed.

Lemma int_overflow_iff (v : value) :
  int v = Raise OverflowError <-> Search.overflows v = true.
Proof.
  destruct v as [ | b | z | f | s | l | d]; simpl;
    try (split; discriminate).
  - destruct f; simpl; split; congruence.
  - destruct (int_of_string_cases s) as [[z Hz] | Hz]; rewrite Hz;
      split; discriminate.
Qed.

Lemma lstrip_spaces (ws rest : string) :
  (forall c rest', rest = String c rest' -> is_space c = false) ->
  all_space ws = true ->
  lstrip (ws ++ rest) = rest.
Proof.
  intros Hrest.
  induction ws as [|c ws IH]; simpl; intros Hws.
  - destruct rest as [|c rest']; [reflexivity|].
    simpl. now rewrite (Hrest c rest' eq_refl).
  - apply andb_true_iff in Hws as [Hc Hws].
    rewrite Hc. now apply IH.
Qed.

End PyFacts.

(** ** Properties of the normalizer *)

Module SearchFacts.
Import Py Search.

Section Normalizer.

Variable JiraIssue : Type.
Variable of_key : string -> JiraIssue.
Variable of_response : value -> value -> JiraIssue.

Local Abbreviation normalize := (from_api_response JiraIssue of_key of_response).
Local Abbreviation SearchResult := (JiraSearchResult JiraIssue).

(** One guarded conversion: it yields the coerced value unless [int]
    overflows, and then the overflow escapes. *)
Lemma guarded_int_ok (raw : value) (default : Z) :
  overflows raw = false ->
  try_except (if negb (is_none raw) then int raw else Ok default) (Ok default)
  = Ok (coerce_or raw default).
Proof.
  intros Hov. unfold coerce_or.
  destruct (is_none raw); simpl; [reflexivity|].
  destruct (int raw) as [z | e] eqn:E; [reflexivity|].
  destruct e; try reflexivity.
  apply PyFacts.int_overflow_iff in E. congruence.
Qed.

Lemma guarded_int_overflow (raw : value) (default : Z) :
  overflows raw = true ->
  try_except (if negb (is_none raw) then int raw else Ok default) (Ok default)
  = Raise OverflowError.
Proof.
  intros Hov. destruct raw as [ | | | f | | | ]; try discriminate.
  destruct f; try discriminate. reflexivity.
Qed.

Lemma guarded_int_inv (raw : value) (default z : Z) :
  try_except (if negb (is_none raw) then int raw else Ok default) (Ok default)
  = Ok z ->
  overflows raw = false /\ z = coerce_or raw default.
Proof.
  intros H. destruct (overflows raw) eqn:Hov.
  - rewrite guarded_int_overflow in H by assumption. discriminate.
  - rewrite guarded_int_ok in H by assumption. split; congruence.
Qed.

Lemma lookup_get (d : dict) (key : string) (v default : value) :
  lookup key d = Some v -> get d key default = v.
Proof. unfold get. now intros ->. Qed.

Lemma lookup_get_none (d : dict) (key : string) (default : value) :
  lookup key d = None -> get d key default = default.
Proof. unfold get. now intros ->. Qed.

Lemma lookup_nonempty (d : dict) (key : string) (v : value) :
  lookup key d = Some v -> truthy (PDict d) = true.
Proof. destruct d; [discriminate | reflexivity]. Qed.

Lemma nonempty_truthy (d : dict) : d <> [] -> truthy (PDict d) = true.
Proof. destruct d; [congruence | reflexivity]. Qed.

(** The inference from [isLast]: taken when the total is [None] or missing
    and the key [isLast] is there. *)
Lemma resolve_total_inferred (d : dict) (found : list JiraIssue) (v : value) :
  is_none (get d "total" PNone) = true ->
  lookup "isLast" d = Some v ->
  resolve_total d found = Ok (if truthy v then len found else -1).
Proof.
  intros Ht Hl. unfold resolve_total, contains.
  rewrite Ht, Hl. simpl. now rewrite (lookup_get _ _ _ _ Hl).
Qed.

(** Outside of it the total is the outcome of the guarded conversion. *)
Lemma resolve_total_explicit (d : dict) (found : list JiraIssue) :
  is_none (get d "total" PNone) = false \/ lookup "isLast" d = None ->
  resolve_total d found =
  try_except (if negb (is_none (get d "total" PNone))
              then int (get d "total" PNone) else Ok (-1)) (Ok (-1)).
Proof.
  intros [Ht | Hl]; unfold resolve_total, contains.
  - now rewrite Ht.
  - rewrite Hl. now rewrite andb_false_r.
Qed.

(** A run on a non-empty dict that returns has exactly the four resolved
    parts as its fields, and logs nothing. *)
Lemma normalize_dict_inv (d : dict) (kwargs : dict) log (r : SearchResult) :
  truthy (PDict d) = true ->
  normalize (PDict d) kwargs = (log, Ok r) ->
  log = [] /\
  issues r = extract_issues JiraIssue of_key of_response kwargs d /\
  resolve_total d (issues r) = Ok (total r) /\
  resolve_start_at d = Ok (start_at r) /\
  resolve_max_results d = Ok (max_results r).
Proof.
  intros Ht. unfold from_api_response. rewrite Ht. simpl.
  destruct (resolve_total d _) as [t|] eqn:Et; simpl; [|discriminate].
  destruct (resolve_start_at d) as [s|] eqn:Es; simpl; [|discriminate].
  destruct (resolve_max_results d) as [m|] eqn:Em; simpl; [|discriminate].
  intros H. injection H as <- <-. simpl. auto.
Qed.

(** A run on a non-empty dict returns as soon as none of the three guarded
    conversions overflows. *)
Lemma normalize_dict_returns (d : dict) (kwargs : dict) :
  truthy (PDict d) = true ->
  (is_none (get d "total" PNone) && contains d "isLast"
   || negb (overflows (get d "total" PNone))) = true ->
  overflows (get d "startAt" PNone) = false ->
  overflows (get d "maxResults" PNone) = false ->
  exists r : SearchResult, normalize (PDict d) kwargs = ([], Ok r).
Proof.
  intros Ht Htot Hs Hm. unfold from_api_response. rewrite Ht. simpl.
  unfold resolve_start_at, resolve_max_results.
  rewrite (guarded_int_ok _ _ Hs), (guarded_int_ok _ _ Hm).
  unfold resolve_total.
  destruct (is_none (get d "total" PNone) && contains d "isLast"); simpl.
  - eexists. reflexivity.
  - simpl in Htot. apply negb_true_iff in Htot.
    rewrite (guarded_int_ok _ _ Htot). simpl. eexists. reflexivity.
Qed.

Lemma build_issues_filter (kwargs : dict) (l : list value) :
  build_issues JiraIssue of_key of_response kwargs l =
  map (build_issue JiraIssue of_key of_response kwargs) (filter truthy l).
Proof.
  induction l as [|x l IH]; simpl; [reflexivity|].
  destruct (truthy x); simpl; now rewrite IH.
Qed.

Lemma filter_shorter (l : list value) :
  len (filter truthy l) <= len l.
Proof.
  unfold len. apply inj_le. induction l as [|x l IH]; simpl; [lia|].
  destruct (truthy x); simpl; lia.
Qed.

Lemma filter_strictly_shorter (l : list value) :
  existsb (fun x => negb (truthy x)) l = true ->
  len (filter truthy l) < len l.
Proof.
  unfold len. intros H. apply inj_lt.
  induction l as [|x l IH]; simpl in *; [discriminate|].
  pose proof (filter_shorter l) as Hle. unfold len in Hle.
  destruct (truthy x); simpl in *; [apply IH in H|]; lia.
Qed.

(** C1: a response without a [total] key that carries a boolean [isLast]
    gets the number of issues built as its total when [isLast] is true, and
    -1 when it is false.  The run returns whenever the two other pagination
    fields do not overflow. *)
Theorem total_from_isLast (d kwargs : dict) (b : bool) :
  lookup "total" d = None ->
  lookup "isLast" d = Some (PBool b) ->
  (forall log (r : SearchResult),
      normalize (PDict d) kwargs = (log, Ok r) ->
      total r = if b then len (issues r) else -1) /\
  (overflows (get d "startAt" PNone) = false ->
   overflows (get d "maxResults" PNone) = false ->
   exists r : SearchResult, normalize (PDict d) kwargs = ([], Ok r)).
Proof.
  intros Ht Hl.
  pose proof (lookup_nonempty _ _ _ Hl) as Hd.
  assert (Hn : is_none (get d "total" PNone) = true)
    by now rewrite (lookup_get_none _ _ _ Ht).
  split.
  - intros log r Hr.
    destruct (normalize_dict_inv _ _ _ _ Hd Hr) as (_ & _ & Htot & _).
    rewrite (resolve_total_inferred _ _ _ Hn Hl) in Htot.
    simpl in Htot. congruence.
  - intros Hs Hm. apply normalize_dict_returns; auto.
    unfold contains. now rewrite Hn, Hl.
Qed.

(** C2: an infinite float in a pagination field is not caught by the
    guard around [int]: the [OverflowError] leaves the normalizer, for each
    of the three fields. *)
Theorem infinite_pagination_field_escapes (kwargs : dict) :
  normalize (PDict [("total", PFloat (S754_infinity false))]) kwargs
  = ([], Raise OverflowError) /\
  normalize (PDict [("startAt", PFloat (S754_infinity false))]) kwargs
  = ([], Raise OverflowError) /\
  normalize (PDict [("maxResults", PFloat (S754_infinity false))]) kwargs
  = ([], Raise OverflowError).
Proof. repeat split. Qed.

(** The part of the coercion rule that holds: on a non-empty dict none of
    whose pagination fields is an infinite float, the normalizer returns; the
    offset and the page size are the coerced fields with defaults 0 and -1,
    and so is the total, with default -1, outside of the [isLast] inference.
    Each conversion is stated for a field that is not text beyond ASCII. *)
Lemma pagination_fallback (d kwargs : dict) :
  d <> [] ->
  overflows (get d "total" PNone) = false ->
  overflows (get d "startAt" PNone) = false ->
  overflows (get d "maxResults" PNone) = false ->
  exists r : SearchResult,
    normalize (PDict d) kwargs = ([], Ok r) /\
    (plain (get d "startAt" PNone) = true ->
     start_at r = coerce_or (get d "startAt" PNone) 0) /\
    (plain (get d "maxResults" PNone) = true ->
     max_results r = coerce_or (get d "maxResults" PNone) (-1)) /\
    (plain (get d "total" PNone) = true ->
     is_none (get d "total" PNone) && contains d "isLast" = false ->
     total r = coerce_or (get d "total" PNone) (-1)).
Proof.
  intros Hd Ht Hs Hm. apply nonempty_truthy in Hd.
  destruct (normalize_dict_returns d kwargs Hd) as [r Hr]; auto.
  { rewrite Ht. apply orb_true_r. }
  exists r. split; [exact Hr|].
  destruct (normalize_dict_inv _ _ _ _ Hd Hr) as (_ & _ & Htot & Hst & Hmx).
  unfold resolve_start_at in Hst. unfold resolve_max_results in Hmx.
  apply guarded_int_inv in Hst as [_ ->].
  apply guarded_int_inv in Hmx as [_ ->].
  repeat split. intros _ Hbr.
  unfold resolve_total in Htot. rewrite Hbr in Htot.
  now apply guarded_int_inv in Htot as [_ ->].
Qed.

(** C5: an input that is falsy ([None], an empty dict, ...) or is not a dict
    yields the instance with every field at its default, without raising; a
    truthy input that is not a dict leaves one record, at debug level, and a
    falsy one leaves none. *)
Theorem empty_or_non_dict_gives_default (data : value) (kwargs : dict) :
  truthy data = false \/ (forall d, data <> PDict d) ->
  normalize data kwargs =
  ((if truthy data then [mk_log DEBUG non_dict_message] else []),
   Ok {| total := 0; start_at := 0; max_results := 0; issues := [] |}).
Proof.
  intros [Hf | Hnd]; unfold from_api_response.
  - now rewrite Hf.
  - destruct (truthy data); simpl; [|reflexivity].
    destruct data; try reflexivity. now elim (Hnd d).
Qed.

(** The only record ever logged is the debug one of the branch for truthy
    inputs that are not dicts. *)
Lemma logged_only_for_non_dict (data : value) (kwargs : dict) :
  fst (normalize data kwargs) = [] \/
  (truthy data = true /\ (forall d, data <> PDict d) /\
   fst (normalize data kwargs) = [mk_log DEBUG non_dict_message]).
Proof.
  unfold from_api_response.
  destruct (truthy data) eqn:Ht; simpl; [|now left].
  destruct data; try (right; repeat split; congruence).
  now left.
Qed.

(** C9: when ["issues"] is a list, the issues built are those of its truthy
    elements, one each and in order; a total inferred from a truthy [isLast]
    counts them, so it is at most the length of the raw list and strictly
    less as soon as one element is falsy. *)
Theorem falsy_issues_skipped (d kwargs : dict) (l : list value) :
  lookup "issues" d = Some (PList l) ->
  (forall log (r : SearchResult),
      normalize (PDict d) kwargs = (log, Ok r) ->
      issues r =
        map (build_issue JiraIssue of_key of_response kwargs) (filter truthy l)
      /\ (forall v, is_none (get d "total" PNone) = true ->
                    lookup "isLast" d = Some v -> truthy v = true ->
                    total r = len (filter truthy l))
      /\ len (filter truthy l) <= len l
      /\ (existsb (fun x => negb (truthy x)) l = true ->
          len (filter truthy l) < len l)) /\
  ((is_none (get d "total" PNone) && contains d "isLast"
    || negb (overflows (get d "total" PNone))) = true ->
   overflows (get d "startAt" PNone) = false ->
   overflows (get d "maxResults" PNone) = false ->
   exists r : SearchResult, normalize (PDict d) kwargs = ([], Ok r)).
Proof.
  intros Hi. pose proof (lookup_nonempty _ _ _ Hi) as Hd. split.
  - intros log r Hr.
    destruct (normalize_dict_inv _ _ _ _ Hd Hr) as (_ & Hiss & Htot & _).
    assert (Hmap : issues r =
      map (build_issue JiraIssue of_key of_response kwargs) (filter truthy l)).
    { rewrite Hiss. unfold extract_issues.
      rewrite (lookup_get _ _ _ _ Hi). apply build_issues_filter. }
    split; [exact Hmap|]. split; [|split].
    + intros v Hn Hl Hv.
      rewrite (resolve_total_inferred _ _ _ Hn Hl), Hv in Htot.
      injection Htot as <-. rewrite Hmap. unfold len.
      now rewrite length_map.
    + apply filter_shorter.
    + apply filter_strictly_shorter.
  - intros Ht Hs Hm. now apply normalize_dict_returns.
Qed.

(** In the model a total that is there and is not [None] resolves to its
    guarded conversion, whatever else the response holds. *)
Lemma explicit_total_resolved (d kwargs : dict) log (r : SearchResult)
  (t : value) :
  lookup "total" d = Some t -> t <> PNone ->
  normalize (PDict d) kwargs = (log, Ok r) ->
  total r = coerce_or t (-1).
Proof.
  intros Ht Hne Hr. pose proof (lookup_nonempty _ _ _ Ht) as Hd.
  destruct (normalize_dict_inv _ _ _ _ Hd Hr) as (_ & _ & Htot & _).
  assert (Hn : is_none (get d "total" PNone) = false).
  { rewrite (lookup_get _ _ _ _ Ht). destruct t; simpl; congruence. }
  rewrite resolve_total_explicit in Htot by now left.
  rewrite (lookup_get _ _ _ _ Ht) in Htot.
  now apply guarded_int_inv in Htot as [_ ->].
Qed.

(** C10: the total is inferred from [isLast] exactly when the total is
    missing or [None] and the key [isLast] is there, whatever its value: it
    is then the issue count if that value is truthy and -1 if it is falsy.
    Without the key [isLast] a missing or [None] total gives -1.  A total
    that is not [None] is never inferred: an integer is kept, a value that
    is not text beyond ASCII gives its conversion or -1, and any value
    decides the total alone, whatever [isLast], the issues and the rest
    of the response are. *)
Theorem isLast_inference_exact (d kwargs : dict) :
  (forall log (r : SearchResult),
      normalize (PDict d) kwargs = (log, Ok r) ->
      (forall v,
          lookup "total" d = None \/ lookup "total" d = Some PNone ->
          lookup "isLast" d = Some v ->
          total r = if truthy v then len (issues r) else -1)
      /\ (d <> [] -> lookup "isLast" d = None ->
          lookup "total" d = None \/ lookup "total" d = Some PNone ->
          total r = -1)
      /\ (forall t, lookup "total" d = Some t -> t <> PNone ->
            (forall z, t = PInt z -> total r = z)
            /\ (plain t = true -> total r = coerce_or t (-1))
            /\ (forall d' kwargs' log' (r' : SearchResult),
                   lookup "total" d' = Some t ->
                   normalize (PDict d') kwargs' = (log', Ok r') ->
                   total r' = total r))) /\
  (d <> [] ->
   (is_none (get d "total" PNone) && contains d "isLast"
    || negb (overflows (get d "total" PNone))) = true ->
   overflows (get d "startAt" PNone) = false ->
   overflows (get d "maxResults" PNone) = false ->
   exists r : SearchResult, normalize (PDict d) kwargs = ([], Ok r)).
Proof.
  split.
  - intros log r Hr. split; [|split].
    + intros v Ht Hl. pose proof (lookup_nonempty _ _ _ Hl) as Hd.
      destruct (normalize_dict_inv _ _ _ _ Hd Hr) as (_ & _ & Htot & _).
      assert (Hn : is_none (get d "total" PNone) = true).
      { destruct Ht as [Ht | Ht]; unfold get; now rewrite Ht. }
      rewrite (resolve_total_inferred _ _ _ Hn Hl) in Htot. congruence.
    + intros Hd Hl Ht. apply nonempty_truthy in Hd.
      destruct (normalize_dict_inv _ _ _ _ Hd Hr) as (_ & _ & Htot & _).
      rewrite resolve_total_explicit in Htot by now right.
      assert (Hn : get d "total" PNone = PNone).
      { destruct Ht as [Ht | Ht]; unfold get; now rewrite Ht. }
      rewrite Hn in Htot. simpl in Htot. congruence.
    + intros t Ht Hne.
      pose proof (explicit_total_resolved _ _ _ _ _ Ht Hne Hr) as Htot.
      split; [|split].
      * intros z ->. exact Htot.
      * intros _. exact Htot.
      * intros d' kwargs' log' r' Ht' Hr'.
        rewrite Htot. exact (explicit_total_resolved _ _ _ _ _ Ht' Hne Hr').
  - intros Hd Ht Hs Hm. apply nonempty_truthy in Hd.
    now apply normalize_dict_returns.
Qed.

End Normalizer.

(** *** The normalizer on concrete responses *)

Example server_page_normalized :
  from_api_response_keys (PDict server_page) [] =
  ([], Ok {| total := 1; start_at := 0; max_results := 50;
             issues := ["TEST-123"] |}).
Proof. reflexivity. Qed.

Example page_without_total_normalized :
  from_api_response_keys (PDict page_without_total) [] =
  ([], Ok {| total := -1; start_at := 0; max_results := 50;
             issues := ["X"] |}).
Proof. reflexivity. Qed.

Example cloud_last_page_normalized :
  from_api_response_keys (PDict cloud_last_page) [] =
  ([], Ok {| total := 2; start_at := 0; max_results := -1;
             issues := ["TEST-1"; "TEST-2"] |}).
Proof. reflexivity. Qed.

Example cloud_more_pages_normalized :
  from_api_response_keys (PDict cloud_more_pages) [] =
  ([], Ok {| total := -1; start_at := 0; max_results := 50;
             issues := ["TEST-1"] |}).
Proof. reflexivity. Qed.

Example cloud_textual_flag_normalized :
  from_api_response_keys (PDict cloud_textual_flag) [] =
  ([], Ok {| total := 2; start_at := 0; max_results := -1;
             issues := ["TEST-1"; "TEST-2"] |}).
Proof. reflexivity. Qed.

Lemma total_from_isLast_witness :
  (forall log r,
      from_api_response_keys (PDict cloud_last_page) [] = (log, Ok r) ->
      total r = len (issues r)) /\
  (exists r, from_api_response_keys (PDict cloud_last_page) [] = ([], Ok r)).
Proof.
  destruct (total_from_isLast string (fun key => key) key_of_response
              cloud_last_page [] true eq_refl eq_refl) as [Hres Hret].
  split; [exact Hres | exact (Hret eq_refl eq_refl)].
Defined.

Lemma empty_or_non_dict_gives_default_witness :
  from_api_response_keys (PList [PInt 1]) [] =
  ([mk_log DEBUG non_dict_message],
   Ok {| total := 0; start_at := 0; max_results := 0; issues := [] |}).
Proof.
  apply (empty_or_non_dict_gives_default string (fun key => key)
           key_of_response (PList [PInt 1]) []).
  right. intros d. discriminate.
Defined.

Lemma falsy_issues_skipped_witness :
  (forall log r,
      from_api_response_keys (PDict cloud_last_page) [] = (log, Ok r) ->
      issues r = ["TEST-1"; "TEST-2"] /\ total r = 2) /\
  (exists r, from_api_response_keys (PDict cloud_last_page) [] = ([], Ok r)).
Proof.
  destruct (falsy_issues_skipped string (fun key => key) key_of_response
              cloud_last_page []
              [PStr "TEST-1"; PNone; PDict [("key", PStr "TEST-2")];
               PStr EmptyString; PInt 0; PDict []]
              eq_refl) as [Hres Hret].
  split.
  - intros log r Hr. destruct (Hres log r Hr) as (Hiss & Htot & _).
    split; [exact Hiss | exact (Htot (PBool true) eq_refl eq_refl eq_refl)].
  - exact (Hret eq_refl eq_refl eq_refl).
Defined.

Lemma isLast_inference_exact_witness :
  (forall log r,
      from_api_response_keys (PDict cloud_textual_flag) [] = (log, Ok r) ->
      total r = len (issues r)) /\
  (exists r,
      from_api_response_keys (PDict cloud_textual_flag) [] = ([], Ok r)).
Proof.
  destruct (isLast_inference_exact string (fun key => key) key_of_response
              cloud_textual_flag []) as [Hres Hret].
  split.
  - intros log r Hr. destruct (Hres log r Hr) as (Hinf & _).
    exact (Hinf (PStr "false") (or_intror eq_refl) eq_refl).
  - apply Hret; [discriminate | reflexivity | reflexivity | reflexivity].
Defined.

End SearchFacts.

(** ** Properties of the query composer *)

Module JqlFacts.
Import Py Jql.

Lemma prefix_append (s t : string) : prefix s (s ++ t) = true.
Proof.
  induction s as [|c s IH]; simpl; [now destruct t|].
  destruct (ascii_dec c c) as [_ | Hne]; [exact IH | now elim Hne].
Qed.

Lemma upper_append (s t : string) : upper (s ++ t) = upper s ++ upper t.
Proof. induction s as [|c s IH]; simpl; [reflexivity | now rewrite IH]. Qed.

(** Only [O] and [o] are mapped to [O], and neither is whitespace. *)
Lemma upper_O_not_space (c : ascii) :
  upper_char c = "O"%char -> is_space c = false.
Proof.
  destruct c as [[] [] [] [] [] [] [] []]; vm_compute;
    intros H; try reflexivity; discriminate H.
Qed.

(** The detection sees [ORDER BY] in any casing behind any run of leading
    whitespace. *)
Lemma order_by_detected (ws kw rest : string) :
  all_space ws = true ->
  upper kw = "ORDER BY" ->
  starts_with_order_by (ws ++ kw ++ rest) = true.
Proof.
  intros Hws Hkw. unfold starts_with_order_by.
  rewrite PyFacts.lstrip_spaces; [| | exact Hws].
  - rewrite upper_append, Hkw. apply prefix_append.
  - intros c rest' E. destruct kw as [|k kw']; [discriminate Hkw|].
    simpl in E, Hkw. injection E as <- _. injection Hkw as Hk _.
    now apply upper_O_not_space.
Qed.

Lemma empty_not_order_by : starts_with_order_by EmptyString = false.
Proof. reflexivity. Qed.

(** The composer on a query that is there, with at least one key. *)
Lemma compose_scoped (q : string) (keys : list string) :
  q <> EmptyString -> keys <> [] ->
  compose (Some q) (Some keys) =
  if starts_with_order_by q
  then Some (project_predicate keys ++ " " ++ q)
  else Some ("(" ++ q ++ ") AND " ++ project_predicate keys).
Proof.
  intros Hq Hk.
  destruct keys as [|k keys]; [congruence|].
  destruct q as [|c q]; [congruence|]. reflexivity.
Qed.

(** C3: a non-empty query that is not led by [ORDER BY] is wrapped in
    parentheses and joined by [AND] to [project = "K"] for one key and to
    [project IN ("K1", "K2", ...)] for several; an empty or absent query
    gives the bare predicate. *)
Theorem compose_conjunction (q : string) :
  (q <> EmptyString -> starts_with_order_by q = false ->
   (forall K,
       compose (Some q) (Some [K]) =
       Some ("(" ++ q ++ ") AND " ++ "project = " ++ dquote ++ K ++ dquote))
   /\
   (forall K1 K2 Ks,
       compose (Some q) (Some (K1 :: K2 :: Ks)) =
       Some ("(" ++ q ++ ") AND " ++
             "project IN (" ++
             String.concat ", " (map quoted (K1 :: K2 :: Ks)) ++ ")"))) /\
  (forall query, query = None \/ query = Some EmptyString ->
   (forall K,
       compose query (Some [K]) = Some ("project = " ++ dquote ++ K ++ dquote))
   /\
   (forall K1 K2 Ks,
       compose query (Some (K1 :: K2 :: Ks)) =
       Some ("project IN (" ++
             String.concat ", " (map quoted (K1 :: K2 :: Ks)) ++ ")"))).
Proof.
  split.
  - intros Hq Hob. split; intros.
    + rewrite compose_scoped, Hob by congruence. reflexivity.
    + rewrite compose_scoped, Hob by congruence. reflexivity.
  - intros query [-> | ->]; split; reflexivity.
Qed.

(** C4: a query made of leading whitespace, [ORDER BY] in any casing and
    whatever follows is appended as it stands, after one space, to the
    project predicate: [project = "K"] for one key, [project IN (...)] for
    several. *)
Theorem order_by_query_appended (ws kw rest : string) :
  all_space ws = true ->
  upper kw = "ORDER BY" ->
  (forall K,
      compose (Some (ws ++ kw ++ rest)) (Some [K]) =
      Some (("project = " ++ dquote ++ K ++ dquote)
            ++ " " ++ (ws ++ kw ++ rest))) /\
  (forall K1 K2 Ks,
      compose (Some (ws ++ kw ++ rest)) (Some (K1 :: K2 :: Ks)) =
      Some (("project IN (" ++
             String.concat ", " (map quoted (K1 :: K2 :: Ks)) ++ ")")
            ++ " " ++ (ws ++ kw ++ rest))).
Proof.
  intros Hws Hkw.
  pose proof (order_by_detected ws kw rest Hws Hkw) as Hob.
  assert (Hq : ws ++ kw ++ rest <> EmptyString).
  { intros E. rewrite E in Hob. discriminate Hob. }
  split; intros; rewrite compose_scoped, Hob by congruence; reflexivity.
Qed.

(** C6: without project keys, be the list empty or absent, the composer
    returns the query it was given. *)
Theorem compose_without_keys (query : option string) :
  compose query None = query /\ compose query (Some []) = query.
Proof. split; reflexivity. Qed.





(** *** The composer on the queries of the test suite *)

Example compose_single_key :
  compose (Some "text ~ 'test'") (Some ["TEST"]) =
  Some ("(text ~ 'test') AND project = " ++ dquote ++ "TEST" ++ dquote).
Proof. reflexivity. Qed.

Example compose_two_keys :
  compose (Some "text ~ 'test'") (Some ["TEST"; "DEV"]) =
  Some ("(text ~ 'test') AND project IN (" ++ dquote ++ "TEST" ++ dquote
        ++ ", " ++ dquote ++ "DEV" ++ dquote ++ ")").
Proof. reflexivity. Qed.

Example compose_empty_query :
  compose (Some EmptyString) (Some ["PROJ1"]) =
  Some ("project = " ++ dquote ++ "PROJ1" ++ dquote).
Proof. reflexivity. Qed.

Example compose_order_by :
  compose (Some "ORDER BY created DESC") (Some ["PROJ1"]) =
  Some ("project = " ++ dquote ++ "PROJ1" ++ dquote
        ++ " ORDER BY created DESC").
Proof. reflexivity. Qed.

Example compose_order_by_spaces :
  compose (Some "  ORDER BY priority DESC  ") (Some ["PROJ1"]) =
  Some ("project = " ++ dquote ++ "PROJ1" ++ dquote
        ++ "   ORDER BY priority DESC  ").
Proof. reflexivity. Qed.

Example compose_order_by_lower :
  compose (Some "order by updated ASC") (Some ["PROJ1"; "PROJ2"]) =
  Some ("project IN (" ++ dquote ++ "PROJ1" ++ dquote ++ ", "
        ++ dquote ++ "PROJ2" ++ dquote ++ ") order by updated ASC").
Proof. reflexivity. Qed.

Example filter_split_and_trimmed :
  parse_projects_filter "TEST, DEV" = ["TEST"; "DEV"].
Proof. reflexivity. Qed.

Example search_jql_config_filter :
  search_jql mentions_project (Some "text ~ 'test'") None
             (Some "CONF1,CONF2") =
  Some ("(text ~ 'test') AND project IN (" ++ dquote ++ "CONF1" ++ dquote
        ++ ", " ++ dquote ++ "CONF2" ++ dquote ++ ")").
Proof. reflexivity. Qed.

Example search_jql_override :
  search_jql mentions_project (Some "text ~ 'test'") (Some "OVERRIDE")
             (Some "CONF1,CONF2") =
  Some ("(text ~ 'test') AND project = " ++ dquote ++ "OVERRIDE" ++ dquote).
Proof. reflexivity. Qed.

Example search_jql_absent_query :
  search_jql mentions_project None (Some "PROJ1") None =
  Some ("project = " ++ dquote ++ "PROJ1" ++ dquote).
Proof. reflexivity. Qed.

Lemma compose_conjunction_witness :
  compose (Some "text ~ 'test'") (Some ["TEST"]) =
  Some ("(text ~ 'test') AND project = " ++ dquote ++ "TEST" ++ dquote) /\
  compose None (Some ["PROJ1"]) =
  Some ("project = " ++ dquote ++ "PROJ1" ++ dquote).
Proof.
  split.
  - destruct (compose_conjunction "text ~ 'test'") as [Hand _].
    destruct Hand as [Hone _]; [discriminate | reflexivity |].
    exact (Hone "TEST").
  - destruct (compose_conjunction "text ~ 'test'") as [_ Hbare].
    destruct (Hbare None (or_introl eq_refl)) as [Hone _].
    exact (Hone "PROJ1").
Defined.

Lemma order_by_query_appended_witness :
  compose (Some "  order By priority DESC  ") (Some ["PROJ1"]) =
  Some ("project = " ++ dquote ++ "PROJ1" ++ dquote
        ++ "   order By priority DESC  ").
Proof.
  destruct (order_by_query_appended "  " "order By" " priority DESC  "
              eq_refl eq_refl) as [Hone _].
  exact (Hone "PROJ1").
Defined.


End JqlFacts.

(** ** Integers written in decimal *)

Module DecimalFacts.
Import Py.

Local Abbreviation string_of_uint := DecimalString.NilEmpty.string_of_uint.

(** What [int] skips, [str.strip] drops as well. *)
Lemma int_space_is_space (c : ascii) :
  is_space c = false -> is_int_space c = false.
Proof.
  destruct c as [[] [] [] [] [] [] [] []]; vm_compute;
    intros H; try reflexivity; discriminate H.
Qed.

Lemma lstrip_no_space (s : string) :
  no_space s = true -> lstrip_by is_int_space s = s.
Proof.
  destruct s as [|c s]; simpl; [reflexivity|].
  intros H. apply andb_true_iff in H as [Hc _].
  apply negb_true_iff, int_space_is_space in Hc. now rewrite Hc.
Qed.

Lemma rstrip_no_space (s : string) :
  no_space s = true -> rstrip_by is_int_space s = s.
Proof.
  induction s as [|c s IH]; simpl; [reflexivity|].
  intros H. apply andb_true_iff in H as [Hc Hs].
  apply negb_true_iff, int_space_is_space in Hc. rewrite (IH Hs).
  destruct s; [now rewrite Hc | reflexivity].
Qed.

Lemma uint_no_space (d : Decimal.uint) : no_space (string_of_uint d) = true.
Proof. induction d; simpl; auto. Qed.

Ltac digit_step :=
  match goal with
  | |- context [is_digit ?c] => change (is_digit c) with true
  end;
  cbv iota.

(** Reading digits after a non-zero prefix follows the accumulator of the
    library's own reader. *)
Lemma parse_digits_acc (d : Decimal.uint) : forall acc,
  parse_digits (Z.pos acc) true (string_of_uint d)
  = Some (Z.pos (Pos.of_uint_acc d acc)).
Proof.
  induction d; intros acc;
    cbn [DecimalString.NilEmpty.string_of_uint parse_digits Pos.of_uint_acc];
    try reflexivity;
    digit_step;
    (match goal with
     | |- context [digit_value ?c] =>
         let v := eval vm_compute in (digit_value c) in
         change (digit_value c) with v
     end);
    rewrite <- IHd; f_equal; lia.
Qed.

Lemma parse_digits_uint (d : Decimal.uint) (prev : bool) :
  prev = true \/ d <> Decimal.Nil ->
  parse_digits 0 prev (string_of_uint d) = Some (Z.of_uint d).
Proof.
  revert prev. unfold Z.of_uint.
  induction d; intros prev Hd;
    cbn [DecimalString.NilEmpty.string_of_uint parse_digits Pos.of_uint];
    try (digit_step;
         match goal with
         | |- context [digit_value ?c] =>
             let v := eval vm_compute in (10 * 0 + digit_value c) in
             change (10 * 0 + digit_value c) with v
         end;
         first [ apply parse_digits_acc | apply IHd; now left ]).
  destruct Hd as [-> | Hd]; [reflexivity | congruence].
Qed.

Lemma count_digits_le (s : string) : (count_digits s <= String.length s)%nat.
Proof.
  induction s as [|c s IH]; simpl; [lia|]. destruct (is_digit c); lia.
Qed.

Lemma to_uint_value (p : positive) : Z.of_uint (Pos.to_uint p) = Z.pos p.
Proof. exact (DecimalZ.of_to (Z.pos p)). Qed.

Lemma to_uint_not_nil (p : positive) : Pos.to_uint p <> Decimal.Nil.
Proof.
  intros E. pose proof (to_uint_value p) as H. rewrite E in H. discriminate H.
Qed.

Lemma int_of_digits (d : Decimal.uint) (neg : bool) :
  d <> Decimal.Nil ->
  (String.length (string_of_uint d) <= int_max_str_digits)%nat ->
  (if (int_max_str_digits <? count_digits (string_of_uint d))%nat
   then Raise ValueError
   else match parse_digits 0 false (string_of_uint d) with
        | Some z => Ok (if neg then - z else z)
        | None => Raise ValueError
        end) = Ok (if neg then - Z.of_uint d else Z.of_uint d).
Proof.
  intros Hd Hlen.
  pose proof (count_digits_le (string_of_uint d)) as Hc.
  destruct (Nat.ltb_spec int_max_str_digits (count_digits (string_of_uint d)))
    as [Hlt | _]; [lia|].
  rewrite parse_digits_uint by now right. reflexivity.
Qed.

(** [int(str(z)) == z], as long as the text stays within the digit limit. *)
Lemma int_of_str (z : Z) :
  (String.length (str_of_int z) <= int_max_str_digits)%nat ->
  int_of_string (str_of_int z) = Ok z.
Proof.
  unfold str_of_int, int_of_string.
  destruct z as [|p|p]; cbn [Z.to_int DecimalString.NilEmpty.string_of_int].
  - intros _. vm_compute. reflexivity.
  - intros Hlen.
    rewrite lstrip_no_space, rstrip_no_space by apply uint_no_space.
    pose proof (int_of_digits (Pos.to_uint p) false (to_uint_not_nil p) Hlen)
      as H.
    rewrite to_uint_value in H. rewrite <- H.
    destruct (Pos.to_uint p); reflexivity.
  - intros Hlen.
    assert (Hs : no_space (String "-" (string_of_uint (Pos.to_uint p))) = true).
    { cbn [no_space]. rewrite uint_no_space. reflexivity. }
    rewrite lstrip_no_space, rstrip_no_space by exact Hs.
    cbn [String.length] in Hlen.
    assert (Hlen' : (String.length (string_of_uint (Pos.to_uint p))
                     <= int_max_str_digits)%nat) by lia.
    pose proof (int_of_digits (Pos.to_uint p) true (to_uint_not_nil p) Hlen')
      as H.
    rewrite to_uint_value in H. exact H.
Qed.

End DecimalFacts.

(** ** Further properties of the normalizer and of the simplified view *)

Module NormalizerFacts.
Import Py Search SearchFacts.

Section Normalizer.

Variable JiraIssue : Type.
Variable of_key : string -> JiraIssue.
Variable of_response : value -> value -> JiraIssue.

Local Abbreviation normalize := (from_api_response JiraIssue of_key of_response).
Local Abbreviation SearchResult := (JiraSearchResult JiraIssue).
Local Abbreviation found_in := (extract_issues JiraIssue of_key of_response).

(** What a run on a truthy dict computes. *)
Lemma normalize_dict (d kwargs : dict) :
  truthy (PDict d) = true ->
  normalize (PDict d) kwargs =
  ([],
   t <- resolve_total d (found_in kwargs d) ;;
   s <- resolve_start_at d ;;
   m <- resolve_max_results d ;;
   Ok {| total := t; start_at := s; max_results := m;
         issues := found_in kwargs d |}).
Proof. intros Ht. unfold from_api_response. now rewrite Ht. Qed.

Lemma resolve_total_cases (d : dict) (found : list JiraIssue) :
  (overflows (get d "total" PNone) = true /\
   resolve_total d found = Raise OverflowError) \/
  (overflows (get d "total" PNone) = false /\
   exists t, resolve_total d found = Ok t).
Proof.
  unfold resolve_total.
  destruct (overflows (get d "total" PNone)) eqn:Hov.
  - left. split; [reflexivity|].
    assert (Hn : is_none (get d "total" PNone) && contains d "isLast" = false)
      by (destruct (get d "total" PNone); simpl in *; congruence).
    rewrite Hn. now apply guarded_int_overflow.
  - right. split; [reflexivity|].
    destruct (is_none (get d "total" PNone) && contains d "isLast");
      [eexists; reflexivity|].
    rewrite (guarded_int_ok _ _ Hov). eexists; reflexivity.
Qed.


(** A response whose total, offset and page size are integers keeps the
    three of them as they are, whether or not it carries [isLast], and logs
    nothing. *)
Theorem integer_fields_pass_through (d kwargs : dict) (t s m : Z) :
  lookup "total" d = Some (PInt t) ->
  lookup "startAt" d = Some (PInt s) ->
  lookup "maxResults" d = Some (PInt m) ->
  normalize (PDict d) kwargs =
  ([], Ok {| total := t; start_at := s; max_results := m;
             issues := found_in kwargs d |}).
Proof.
  intros Ht Hs Hm.
  rewrite (normalize_dict d kwargs (lookup_nonempty _ _ _ Ht)).
  unfold resolve_total, resolve_start_at, resolve_max_results.
  rewrite (lookup_get _ _ _ PNone Ht), (lookup_get _ _ _ PNone Hs),
    (lookup_get _ _ _ PNone Hm).
  reflexivity.
Qed.

(** A non-empty response without [isLast] whose three pagination fields are
    missing or [None] gets the sentinels: total -1, offset 0, page size -1.
    The empty dict instead gets the class defaults, all zero. *)
Theorem missing_pagination_gives_sentinels (d kwargs : dict) :
  d <> [] ->
  lookup "isLast" d = None ->
  is_none (get d "total" PNone) = true ->
  is_none (get d "startAt" PNone) = true ->
  is_none (get d "maxResults" PNone) = true ->
  normalize (PDict d) kwargs =
    ([], Ok {| total := -1; start_at := 0; max_results := -1;
               issues := found_in kwargs d |}) /\
  normalize (PDict []) kwargs =
    ([], Ok {| total := 0; start_at := 0; max_results := 0; issues := [] |}).
Proof.
  intros Hd Hl Ht Hs Hm. split; [|reflexivity].
  rewrite (normalize_dict d kwargs (nonempty_truthy d Hd)).
  unfold resolve_total, resolve_start_at, resolve_max_results, contains.
  rewrite Hl, Ht, Hs, Hm. reflexivity.
Qed.

(** When ["issues"] is missing or is not a list, no issue is built; a total
    inferred from [isLast] is then 0 for a truthy flag and -1 for a falsy
    one. *)
Theorem issues_absent_or_not_a_list (d kwargs : dict) :
  lookup "issues" d = None \/
  (exists v, lookup "issues" d = Some v /\ forall l, v <> PList l) ->
  (forall log (r : SearchResult),
      normalize (PDict d) kwargs = (log, Ok r) ->
      issues r = [] /\
      (forall flag,
          is_none (get d "total" PNone) = true ->
          lookup "isLast" d = Some flag ->
          total r = if truthy flag then 0 else -1)) /\
  (forall flag,
      is_none (get d "total" PNone) = true ->
      lookup "isLast" d = Some flag ->
      overflows (get d "startAt" PNone) = false ->
      overflows (get d "maxResults" PNone) = false ->
      exists r : SearchResult, normalize (PDict d) kwargs = ([], Ok r)).
Proof.
  intros Hi.
  assert (Hnone : found_in kwargs d = []).
  { unfold extract_issues, get.
    destruct Hi as [-> | [v [-> Hv]]]; [reflexivity|].
    destruct v; try reflexivity. now elim (Hv l). }
  split.
  - intros log r Hr.
    assert (Hiss : issues r = []).
    { destruct (truthy (PDict d)) eqn:Hd.
      - destruct (normalize_dict_inv _ _ _ _ _ _ _ Hd Hr) as (_ & E & _).
        now rewrite E.
      - unfold from_api_response in Hr. rewrite Hd in Hr. simpl in Hr.
        injection Hr as _ <-. reflexivity. }
    split; [exact Hiss|].
    intros flag Ht Hl.
    destruct (normalize_dict_inv _ _ _ _ _ _ _ (lookup_nonempty _ _ _ Hl) Hr)
      as (_ & _ & Htot & _).
    rewrite (resolve_total_inferred _ _ _ _ Ht Hl), Hiss in Htot.
    injection Htot as <-. now destruct (truthy flag).
  - intros flag Ht Hl Hs Hm.
    apply normalize_dict_returns;
      [ exact (lookup_nonempty _ _ _ Hl) | | exact Hs | exact Hm ].
    unfold contains. now rewrite Ht, Hl.
Qed.

(** Of the keyword arguments only [requested_fields] is read: two calls that
    agree on it give the same outcome. *)
Theorem only_requested_fields_is_read (data : value) (kwargs kwargs' : dict) :
  get kwargs "requested_fields" PNone = get kwargs' "requested_fields" PNone ->
  normalize data kwargs = normalize data kwargs'.
Proof.
  intros Hrf.
  assert (Hb : forall l,
    build_issues JiraIssue of_key of_response kwargs l =
    build_issues JiraIssue of_key of_response kwargs' l).
  { induction l as [|x l IH]; simpl; [reflexivity|].
    rewrite IH. destruct (truthy x); [|reflexivity].
    f_equal. unfold build_issue. now rewrite Hrf. }
  unfold from_api_response. destruct (truthy data); simpl; [|reflexivity].
  destruct data; try reflexivity.
  unfold extract_issues. destruct (get d "issues" (PList [])); try reflexivity.
  now rewrite Hb.
Qed.

(** A response whose total, offset and page size are the decimal texts of
    integers yields those integers, like the response that carries the
    integers themselves. *)
Theorem decimal_text_fields_are_read (d kwargs : dict) (t s m : Z) :
  lookup "total" d = Some (PStr (str_of_int t)) ->
  lookup "startAt" d = Some (PStr (str_of_int s)) ->
  lookup "maxResults" d = Some (PStr (str_of_int m)) ->
  (String.length (str_of_int t) <= int_max_str_digits)%nat ->
  (String.length (str_of_int s) <= int_max_str_digits)%nat ->
  (String.length (str_of_int m) <= int_max_str_digits)%nat ->
  normalize (PDict d) kwargs =
  ([], Ok {| total := t; start_at := s; max_results := m;
             issues := found_in kwargs d |}).
Proof.
  intros Ht Hs Hm Lt Ls Lm.
  rewrite (normalize_dict d kwargs (lookup_nonempty _ _ _ Ht)).
  unfold resolve_total, resolve_start_at, resolve_max_results.
  rewrite (lookup_get _ _ _ PNone Ht), (lookup_get _ _ _ PNone Hs),
    (lookup_get _ _ _ PNone Hm).
  cbn [is_none negb andb int].
  rewrite (DecimalFacts.int_of_str t Lt), (DecimalFacts.int_of_str s Ls),
    (DecimalFacts.int_of_str m Lm).
  reflexivity.
Qed.

Section View.

Variable to_simplified : JiraIssue -> dict.

(** From an integer-paginated response to the simplified view: the three
    numbers come out under [total], [start_at] and [max_results], and
    [issues] holds one rendered issue per truthy raw element, in order. *)
Theorem simplified_view_of_integer_page
  (d kwargs : dict) (t s m : Z) (l : list value) :
  lookup "total" d = Some (PInt t) ->
  lookup "startAt" d = Some (PInt s) ->
  lookup "maxResults" d = Some (PInt m) ->
  lookup "issues" d = Some (PList l) ->
  exists r : SearchResult,
    normalize (PDict d) kwargs = ([], Ok r) /\
    to_simplified_dict to_simplified r =
    [("total", PInt t); ("start_at", PInt s); ("max_results", PInt m);
     ("issues",
      PList (map (fun issue_data =>
                    PDict (to_simplified
                             (build_issue JiraIssue of_key of_response
                                          kwargs issue_data)))
                 (filter truthy l)))].
Proof.
  intros Ht Hs Hm Hi. eexists. split.
  - rewrite (normalize_dict d kwargs (lookup_nonempty _ _ _ Ht)).
    unfold resolve_total, resolve_start_at, resolve_max_results.
    rewrite (lookup_get _ _ _ PNone Ht), (lookup_get _ _ _ PNone Hs),
      (lookup_get _ _ _ PNone Hm).
    reflexivity.
  - unfold to_simplified_dict. cbn [total start_at max_results issues].
    unfold extract_issues. rewrite (lookup_get _ _ _ _ Hi).
    rewrite build_issues_filter, map_map. reflexivity.
Qed.

(** The simplified view is not a response: normalizing it again keeps the
    total, but its snake-case keys are not read, so the offset falls back to
    0 and the page size to -1. *)
Theorem simplified_view_renormalized (r : SearchResult) (kwargs : dict) :
  normalize (PDict (to_simplified_dict to_simplified r)) kwargs =
  ([], Ok {| total := total r; start_at := 0; max_results := -1;
             issues :=
               build_issues JiraIssue of_key of_response kwargs
                 (map (fun issue => PDict (to_simplified issue)) (issues r)) |}).
Proof. reflexivity. Qed.

End View.

End Normalizer.

Section KeyOnlyPage.

Variable JiraIssue : Type.
Variable of_key : string -> JiraIssue.

Lemma build_issues_keys (of_response : value -> value -> JiraIssue)
  (kwargs : dict) (keys : list string) :
  build_issues JiraIssue of_key of_response kwargs (map PStr keys) =
  map of_key (filter (fun key => truthy (PStr key)) keys).
Proof.
  induction keys as [|k keys IH]; simpl; [reflexivity|].
  rewrite IH. now destruct k.
Qed.

(** A page that lists bare issue keys gives one key-only issue per
    non-empty key, in order; the issue factory and the keyword arguments have
    no part in the outcome. *)
Theorem key_only_page (of_response : value -> value -> JiraIssue)
  (d kwargs : dict) (keys : list string) :
  lookup "issues" d = Some (PList (map PStr keys)) ->
  (forall log r,
      from_api_response JiraIssue of_key of_response (PDict d) kwargs
      = (log, Ok r) ->
      issues r = map of_key (filter (fun key => truthy (PStr key)) keys)) /\
  (forall of_response' kwargs',
      from_api_response JiraIssue of_key of_response' (PDict d) kwargs'
      = from_api_response JiraIssue of_key of_response (PDict d) kwargs).
Proof.
  intros Hi. split.
  - intros log r Hr.
    destruct (normalize_dict_inv _ _ _ _ _ _ _ (lookup_nonempty _ _ _ Hi) Hr)
      as (_ & Hiss & _).
    rewrite Hiss. unfold extract_issues. rewrite (lookup_get _ _ _ _ Hi).
    apply build_issues_keys.
  - intros of_response' kwargs'.
    unfold from_api_response, extract_issues.
    rewrite (lookup_get _ _ _ _ Hi), !build_issues_keys. reflexivity.
Qed.

End KeyOnlyPage.

Section Raising.

Variable JiraIssue : Type.
Variable IssueError : Type.
Variable of_key : string -> IssueError + JiraIssue.
Variable of_response : value -> value -> IssueError + JiraIssue.

Local Abbreviation run :=
  (from_api_response_raising JiraIssue IssueError of_key of_response).
Local Abbreviation try_issue :=
  (try_build_issue JiraIssue IssueError of_key of_response).
Local Abbreviation try_issues :=
  (try_build_issues JiraIssue IssueError of_key of_response).
Local Abbreviation try_found :=
  (try_extract_issues JiraIssue IssueError of_key of_response).

(** The loop over the issues raises [e] exactly when [e] is what the issue
    model raises on the first truthy element it does not accept. *)
Lemma try_issues_raises (kwargs : dict) (l : list value) (e : IssueError) :
  try_issues kwargs l = inl e <->
  exists before x after,
    l = (before ++ x :: after)%list /\ truthy x = true /\
    try_issue kwargs x = inl e /\
    forall y, In y before -> truthy y = true ->
              exists issue, try_issue kwargs y = inr issue.
Proof.
  split.
  - induction l as [|x l IH]; simpl; [discriminate|].
    destruct (truthy x) eqn:Hx.
    + destruct (try_issue kwargs x) as [e' | issue] eqn:Ex.
      * intros [= <-]. exists [], x, l. repeat split; auto.
        intros y [].
      * destruct (try_issues kwargs l) as [e' | found]; [|discriminate].
        intros [= <-].
        destruct (IH eq_refl) as (before & x' & after & -> & Hx' & Ex' & Hb).
        exists (x :: before), x', after. repeat split; auto.
        intros y [<- | Hy] Hty; [eauto | auto].
    + intros H.
      destruct (IH H) as (before & x' & after & -> & Hx' & Ex' & Hb).
      exists (x :: before), x', after. repeat split; auto.
      intros y [<- | Hy] Hty; [congruence | auto].
  - intros (before & x & after & -> & Hx & Ex & Hb).
    induction before as [|y before IH]; simpl.
    + now rewrite Hx, Ex.
    + rewrite IH by (intros z Hz; apply Hb; now right).
      destruct (truthy y) eqn:Hy; [|reflexivity].
      destruct (Hb y (or_introl eq_refl) Hy) as [issue ->]. reflexivity.
Qed.

Lemma conversions_cases (d : dict) (found : list JiraIssue) :
  (overflows (get d "total" PNone)
   || overflows (get d "startAt" PNone)
   || overflows (get d "maxResults" PNone) = true /\
   (t <- resolve_total d found ;;
    s <- resolve_start_at d ;;
    m <- resolve_max_results d ;;
    Ok {| total := t; start_at := s; max_results := m; issues := found |})
   = Raise OverflowError) \/
  (overflows (get d "total" PNone)
   || overflows (get d "startAt" PNone)
   || overflows (get d "maxResults" PNone) = false /\
   exists r : JiraSearchResult JiraIssue,
     (t <- resolve_total d found ;;
      s <- resolve_start_at d ;;
      m <- resolve_max_results d ;;
      Ok {| total := t; start_at := s; max_results := m; issues := found |})
     = Ok r).
Proof.
  unfold resolve_start_at, resolve_max_results.
  destruct (resolve_total_cases JiraIssue d found)
    as [[Hov Hr] | [Hov [t Hr]]]; rewrite Hr, Hov; simpl bind.
  { left. split; reflexivity. }
  destruct (overflows (get d "startAt" PNone)) eqn:Hs.
  { rewrite (guarded_int_overflow _ _ Hs). left. split; reflexivity. }
  rewrite (guarded_int_ok _ _ Hs). simpl bind.
  destruct (overflows (get d "maxResults" PNone)) eqn:Hm.
  { rewrite (guarded_int_overflow _ _ Hm). left. split; reflexivity. }
  rewrite (guarded_int_ok _ _ Hm). simpl bind.
  right. split; [reflexivity | eexists; reflexivity].
Qed.

(** What leaves the normalizer.  Of its own conversions only an
    [OverflowError] does, never a [ValueError] or a [TypeError], and exactly
    when the issues were all built and the total, the offset or the page
    size is an infinite float.  An exception of the issue model leaves
    exactly when the model raises it on the first truthy element of the
    issues list that it does not accept. *)
Theorem what_leaves_the_normalizer (data : value) (kwargs : dict) :
  (forall e, snd (run data kwargs) = inl (FromConversion e) ->
             e = OverflowError) /\
  (forall e,
      snd (run data kwargs) = inl (FromIssueModel e) <->
      exists d l before x after,
        data = PDict d /\ lookup "issues" d = Some (PList l) /\
        l = (before ++ x :: after)%list /\ truthy x = true /\
        try_issue kwargs x = inl e /\
        forall y, In y before -> truthy y = true ->
                  exists issue, try_issue kwargs y = inr issue) /\
  ((exists e, snd (run data kwargs) = inl (FromConversion e)) <->
   exists d found,
     data = PDict d /\ try_found kwargs d = inr found /\
     (overflows (get d "total" PNone)
      || overflows (get d "startAt" PNone)
      || overflows (get d "maxResults" PNone)) = true).
Proof.
  assert (Hquiet : snd (run data kwargs) = inr default_result ->
                   (forall d, data = PDict d -> d = []) ->
                   (forall e, snd (run data kwargs) = inl (FromConversion e) ->
                              e = OverflowError) /\
                   (forall e,
                       snd (run data kwargs) = inl (FromIssueModel e) <->
                       exists d l before x after,
                         data = PDict d /\
                         lookup "issues" d = Some (PList l) /\
                         l = (before ++ x :: after)%list /\ truthy x = true /\
                         try_issue kwargs x = inl e /\
                         forall y, In y before -> truthy y = true ->
                                   exists issue, try_issue kwargs y = inr issue) /\
                   ((exists e,
                        snd (run data kwargs) = inl (FromConversion e)) <->
                    exists d found,
                      data = PDict d /\ try_found kwargs d = inr found /\
                      (overflows (get d "total" PNone)
                       || overflows (get d "startAt" PNone)
                       || overflows (get d "maxResults" PNone)) = true)).
  { intros Hrun Hd. rewrite Hrun. split; [discriminate|]. split.
    - intros e. split; [discriminate|].
      intros (d & l & _ & _ & _ & -> & Hl & _).
      rewrite (Hd d eq_refl) in Hl. discriminate Hl.
    - split; [intros [e H]; discriminate H|].
      intros (d & found & -> & _ & H).
      rewrite (Hd d eq_refl) in H. discriminate H. }
  destruct (truthy data) eqn:Ht.
  - destruct data as [ | b | z | f | s | l | d];
      try (apply Hquiet;
           [ unfold from_api_response_raising; rewrite Ht; reflexivity
           | intros d Hd; discriminate Hd ]).
    clear Hquiet.
    unfold from_api_response_raising. rewrite Ht. cbn [negb].
    destruct (try_found kwargs d) as [e0 | found] eqn:Ef; cbn [snd].
    + split; [discriminate|]. split.
      * intros e. split.
        -- intros [= <-]. unfold try_extract_issues, get in Ef.
           destruct (lookup "issues" d) as [v|] eqn:El; [|discriminate Ef].
           destruct v; try discriminate Ef.
           apply try_issues_raises in Ef
             as (before & x & after & Hl & Hx & Ex & Hb).
           exists d, l, before, x, after. repeat split; auto.
        -- intros (d' & l & before & x & after & [= <-] & Hl & Hrest).
           unfold try_extract_issues in Ef.
           rewrite (lookup_get _ _ _ _ Hl) in Ef.
           assert (E : try_issues kwargs l = inl e)
             by (apply try_issues_raises; eauto).
           congruence.
      * split; [intros [e H]; discriminate H|].
        intros (d' & found & [= <-] & Ef' & _). congruence.
    + destruct (conversions_cases d found) as [[Hov Hr] | [Hov [r Hr]]];
        rewrite Hr.
      * split; [congruence|]. split.
        -- intros e. split; [discriminate|].
           intros (d' & l & before & x & after & [= <-] & Hl & Hrest).
           unfold try_extract_issues in Ef.
           rewrite (lookup_get _ _ _ _ Hl) in Ef.
           assert (E : try_issues kwargs l = inl e)
             by (apply try_issues_raises; eauto).
           congruence.
        -- split; [|eauto]. intros _. exists d, found. auto.
      * split; [discriminate|]. split.
        -- intros e. split; [discriminate|].
           intros (d' & l & before & x & after & [= <-] & Hl & Hrest).
           unfold try_extract_issues in Ef.
           rewrite (lookup_get _ _ _ _ Hl) in Ef.
           assert (E : try_issues kwargs l = inl e)
             by (apply try_issues_raises; eauto).
           congruence.
        -- split; [intros [e H]; discriminate H|].
           intros (d' & found' & [= <-] & _ & H). congruence.
  - apply Hquiet.
    + unfold from_api_response_raising. now rewrite Ht.
    + intros d ->. destruct d; [reflexivity | discriminate Ht].
Qed.

End Raising.

(** With an issue model that raises nothing, [from_api_response_raising]
    is [from_api_response]. *)
Lemma raising_agrees (JiraIssue IssueError : Type)
  (of_key : string -> JiraIssue) (of_response : value -> value -> JiraIssue)
  (data : value) (kwargs : dict) :
  from_api_response_raising JiraIssue IssueError
    (fun key => inr (of_key key))
    (fun issue_data requested => inr (of_response issue_data requested))
    data kwargs
  = (fst (from_api_response JiraIssue of_key of_response data kwargs),
     match snd (from_api_response JiraIssue of_key of_response data kwargs)
     with
     | Ok r => inr r
     | Raise e => inl (FromConversion e)
     end).
Proof.
  assert (Hb : forall l,
    try_build_issues JiraIssue IssueError
      (fun key => inr (of_key key))
      (fun issue_data requested => inr (of_response issue_data requested))
      kwargs l
    = inr (build_issues JiraIssue of_key of_response kwargs l)).
  { induction l as [|x l IH]; simpl; [reflexivity|].
    rewrite IH. destruct (truthy x); [|reflexivity]. now destruct x. }
  unfold from_api_response_raising, from_api_response.
  destruct (truthy data); simpl; [|reflexivity].
  destruct data; try reflexivity.
  unfold try_extract_issues, extract_issues.
  destruct (get d "issues" (PList [])); try reflexivity.
  now rewrite Hb.
Qed.

(** *** Instances on concrete responses *)

Lemma what_leaves_the_normalizer_witness :
  snd (from_api_response_checked (PDict page_with_bad_issue) [])
  = inl (FromIssueModel "issue is not an object") /\
  forall e,
    snd (from_api_response_checked (PDict page_with_bad_issue) [])
    = inl (FromConversion e) -> e = OverflowError.
Proof.
  destruct (what_leaves_the_normalizer string string (fun key => inr key)
              checked_key_of_response (PDict page_with_bad_issue) [])
    as (Hconv & Hissue & _).
  split; [|exact Hconv].
  apply Hissue.
  exists page_with_bad_issue,
    [PStr "TEST-1"; PNone; PInt 7; PDict [("id", PStr "1")]],
    [PStr "TEST-1"; PNone], (PInt 7), [PDict [("id", PStr "1")]].
  repeat split.
  intros y [<- | [<- | []]] Hy; [eexists; reflexivity | discriminate Hy].
Defined.


Lemma integer_fields_pass_through_witness :
  from_api_response_keys (PDict server_page) [] =
  ([], Ok {| total := 1; start_at := 0; max_results := 50;
             issues := ["TEST-123"] |}).
Proof.
  exact (integer_fields_pass_through string (fun key => key) key_of_response
           server_page [] 1 0 50 eq_refl eq_refl eq_refl).
Defined.

Lemma missing_pagination_gives_sentinels_witness :
  from_api_response_keys (PDict [("issues", PList [])]) [] =
  ([], Ok {| total := -1; start_at := 0; max_results := -1; issues := [] |}).
Proof.
  refine (proj1 (missing_pagination_gives_sentinels string (fun key => key)
                   key_of_response [("issues", PList [])] []
                   _ eq_refl eq_refl eq_refl eq_refl)).
  discriminate.
Defined.

Lemma issues_absent_or_not_a_list_witness :
  (forall log r,
      from_api_response_keys
        (PDict [("issues", PStr "none"); ("isLast", PBool true)]) []
      = (log, Ok r) ->
      issues r = [] /\ total r = 0) /\
  (exists r,
      from_api_response_keys
        (PDict [("issues", PStr "none"); ("isLast", PBool true)]) []
      = ([], Ok r)).
Proof.
  destruct (issues_absent_or_not_a_list string (fun key => key)
              key_of_response
              [("issues", PStr "none"); ("isLast", PBool true)] [])
    as [Hres Hret].
  { right. exists (PStr "none"). split; [reflexivity|].
    intros l. discriminate. }
  split.
  - intros log r Hr. destruct (Hres log r Hr) as [Hiss Htot].
    split; [exact Hiss | exact (Htot (PBool true) eq_refl eq_refl)].
  - exact (Hret (PBool true) eq_refl eq_refl eq_refl eq_refl).
Defined.

Lemma only_requested_fields_is_read_witness :
  from_api_response_keys (PDict server_page) [("expand", PStr "names")] =
  from_api_response_keys (PDict server_page) [].
Proof.
  exact (only_requested_fields_is_read string (fun key => key) key_of_response
           (PDict server_page) [("expand", PStr "names")] [] eq_refl).
Defined.

Lemma decimal_text_fields_are_read_witness :
  from_api_response_keys (PDict textual_page) [] =
  ([], Ok {| total := 12; start_at := -3; max_results := 50;
             issues := ["TEST-1"] |}).
Proof.
  refine (decimal_text_fields_are_read string (fun key => key) key_of_response
            textual_page [] 12 (-3) 50 eq_refl eq_refl eq_refl _ _ _);
    apply Nat.leb_le; reflexivity.
Defined.

Lemma simplified_view_of_integer_page_witness :
  exists r,
    from_api_response_keys (PDict server_page) [] = ([], Ok r) /\
    to_simplified_dict (fun key => [("key", PStr key)]) r =
    [("total", PInt 1); ("start_at", PInt 0); ("max_results", PInt 50);
     ("issues", PList [PDict [("key", PStr "TEST-123")]])].
Proof.
  exact (simplified_view_of_integer_page string (fun key => key)
           key_of_response (fun key => [("key", PStr key)])
           server_page [] 1 0 50
           [PDict [("id", PStr "10001"); ("key", PStr "TEST-123")]]
           eq_refl eq_refl eq_refl eq_refl).
Defined.

Lemma key_only_page_witness :
  (forall log r,
      from_api_response_keys (PDict key_page) [] = (log, Ok r) ->
      issues r = ["TEST-1"; "TEST-2"]) /\
  from_api_response string (fun key => key) (fun _ _ => "other")
    (PDict key_page) [("requested_fields", PStr "summary")]
  = from_api_response_keys (PDict key_page) [].
Proof.
  destruct (key_only_page string (fun key => key) key_of_response
              key_page [] ["TEST-1"; EmptyString; "TEST-2"] eq_refl)
    as [Hiss Hsame].
  split; [exact Hiss|].
  exact (Hsame (fun _ _ => "other") [("requested_fields", PStr "summary")]).
Defined.

Lemma pagination_fallback_witness :
  exists r,
    from_api_response_keys (PDict cloud_more_pages) [] = ([], Ok r) /\
    start_at r = 0 /\ max_results r = 50.
Proof.
  destruct (pagination_fallback string (fun key => key) key_of_response
              cloud_more_pages []) as [r (Hr & Hs & Hm & _)];
    [discriminate | reflexivity | reflexivity | reflexivity |].
  exists r. split; [exact Hr|].
  split; [exact (Hs eq_refl) | exact (Hm eq_refl)].
Defined.

End NormalizerFacts.
